(** * ReportStepMessage.vue (component "EditorBugStep")

    A shallow embedding of the script and template of
    [web/server/vue-cli/src/components/Report/ReportStepMessage.vue]:
    the computed properties [color] and [textColor], the methods
    [showPrevReport] and [showNextReport], and the template with its two
    conditionally rendered buttons.

    JavaScript values are a small tagged union, objects live in a store and
    are passed by reference, and a call of [bus.$emit] is recorded in an
    append-only log that is part of the state the methods thread through. *)

From Stdlib Require Import ZArith.
From stdpp Require Import base option strings list gmap.

(** ** JavaScript values, the object store and the effect monad *)

Module JS.

(** Object identity: two object values are [===] exactly when they are the
    same reference. *)
Definition loc := positive.

(** The values a prop can hold at run time.  Vue checks the declared prop
    type only in development builds and then only warns, so a prop declared
    [String] or [Object] can still carry any value.  Numbers are restricted
    to the integers and NaN, which is all that truthiness and [===] against
    a string literal can tell apart. *)
Inductive jsval : Type :=
| VUndefined
| VNull
| VBool (b : bool)
| VNum (n : Z)
| VNaN
| VStr (s : string)
| VObj (r : loc).

(** ToBoolean. *)
Definition truthy (v : jsval) : bool :=
  match v with
  | VUndefined | VNull | VNaN => false
  | VBool b => b
  | VNum n => negb (n =? 0)%Z
  | VStr s => negb (String.eqb s EmptyString)
  | VObj _ => true
  end.

(** [a && b]: yields [a] when [a] is falsy and [b] otherwise. *)
Definition js_and (a b : jsval) : jsval :=
  if truthy a then b else a.

(** [a === b], the comparison a [switch] uses for its [case] labels. *)
Definition strict_eq (a b : jsval) : bool :=
  match a, b with
  | VUndefined, VUndefined => true
  | VNull, VNull => true
  | VBool x, VBool y => Bool.eqb x y
  | VNum x, VNum y => (x =? y)%Z
  | VStr x, VStr y => String.eqb x y
  | VObj x, VObj y => (x =? y)%positive
  | _, _ => false
  end.

(** An object in the store.  [is_vue] tells a Vue instance (which has the
    [$emit] method) from a plain data object such as a report step. *)
Record object : Type := Object {
  is_vue : bool;
  fields : gmap string jsval
}.

(** One call [r.$emit(name, ...args)]. *)
Record event : Type := Event {
  ev_bus : loc;
  ev_name : string;
  ev_args : list jsval
}.

(** The state shared with the rest of the page: the object store and the
    log of the events emitted so far, oldest first.  What the listeners of
    a bus do with an event belongs to the owner of the bus. *)
Record world : Type := World {
  heap : gmap loc object;
  emitted : list event
}.

Inductive error : Type :=
| TypeError.

(** Computations that read and write the world and may throw.  The world is
    returned in both cases: an exception does not undo earlier effects. *)
Definition M (A : Type) : Type := world → world * (error + A).

Definition ret {A : Type} (a : A) : M A := λ w, (w, inr a).

Definition throw {A : Type} (e : error) : M A := λ w, (w, inl e).

Definition bind {A B : Type} (m : M A) (k : A → M B) : M B :=
  λ w, match m w with
       | (w', inr a) => k a w'
       | (w', inl e) => (w', inl e)
       end.

Declare Scope js_scope.
Delimit Scope js_scope with js.
Notation "x <~ m ;; k" := (bind m (λ x, k))
  (at level 100, m at next level, right associativity) : js_scope.
Notation "m ;;; k" := (bind m (λ _, k))
  (at level 100, right associativity) : js_scope.

(** [v.$emit(name, ...args)].  Only a Vue instance has the method; on any
    other truthy value the member is undefined and the call throws.  The
    call returns the instance. *)
Definition emit (v : jsval) (name : string) (args : list jsval) : M jsval :=
  λ w, match v with
       | VObj r =>
           match heap w !! r with
           | Some o =>
               if is_vue o
               then (World (heap w) (emitted w ++ [Event r name args]),
                     inr (VObj r))
               else throw TypeError w
           | None => throw TypeError w
           end
       | _ => throw TypeError w
       end.

(** The events a run from [w] to [w'] has added to the log. *)
Definition published (w w' : world) : list event :=
  drop (length (emitted w)) (emitted w').

End JS.

(** ** The component *)

Module EditorBugStep.
Import JS.
Local Open Scope js_scope.

(** [props].  [value] and [marginLeft] are only interpolated into the
    output and are kept as strings; the other props keep whatever value
    the parent passed (the declared default of [type], [index], [bus],
    [prevStep] and [nextStep] is [null]). *)
Record props : Type := Props {
  id : jsval;
  value : string;
  marginLeft : string;
  type : jsval;
  index : jsval;
  bus : jsval;
  prevStep : jsval;
  nextStep : jsval
}.

(** *** computed *)

Definition color (this : props) : string :=
  if strict_eq (type this) (VStr "error") then "#f2dede"
  else if strict_eq (type this) (VStr "fixit") then "#fcf8e3"
  else if strict_eq (type this) (VStr "macro") then "#d7dac2"
  else if strict_eq (type this) (VStr "note") then "#d7d7d7"
  else "#bfdfe9".

Definition textColor (this : props) : string :=
  if strict_eq (type this) (VStr "error") then "#a94442"
  else if strict_eq (type this) (VStr "fixit") then "#8a6d3b"
  else if strict_eq (type this) (VStr "macro") then "#4f5c6d"
  else if strict_eq (type this) (VStr "note") then "#4f5c6d"
  else "#00546f".

(** *** methods *)

Definition showPrevReport (this : props) : M jsval :=
  if truthy (js_and (prevStep this) (bus this))
  then (emit (bus this) "jpmToPrevReport" [prevStep this] ;;; ret VUndefined)
  else ret VUndefined.

Definition showNextReport (this : props) : M jsval :=
  if truthy (js_and (nextStep this) (bus this))
  then (emit (bus this) "jpmToNextReport" [nextStep this] ;;; ret VUndefined)
  else ret VUndefined.

(** *** template *)

(** The two methods a [@click] of the template refers to. *)
Inductive handler : Type :=
| ShowPrevReport
| ShowNextReport.

Definition methods (h : handler) (this : props) : M jsval :=
  match h with
  | ShowPrevReport => showPrevReport this
  | ShowNextReport => showNextReport this
  end.

Inductive side : Type :=
| SLeft
| SRight.

(** The tree the template renders to, reduced to its elements and the
    interpolated message.  The text nodes that hold only the white space
    between two tags, the white space around [{{ value }}] and the empty
    placeholder Vue leaves where a [v-if] is false are left out: they hang
    on the whitespace option of the template compiler and carry no prop.
    Statements about the tree are therefore made on its elements (the
    buttons, their handlers, the attributes of the chip), not on the exact
    list of children. *)
#[local] Unset Elimination Schemes.
Inductive vnode : Type :=
| VChip (chip_color chip_text_color : string) (step_id chip_type : jsval)
        (margin_left : string) (children : list vnode)
| ReportStepEnumIcon (icon_type icon_index : jsval)
| VBtn (s : side) (click : handler) (children : list vnode)
| VIcon (name : string)
| VText (s : string).
#[local] Set Elimination Schemes.

(** A [v-if] element is rendered when its condition is truthy, and is no
    element of the tree otherwise. *)
Definition v_if (c : jsval) (n : vnode) : list vnode :=
  if truthy c then [n] else [].

Definition render (this : props) : vnode :=
  VChip (color this) (textColor this) (id this) (type this) (marginLeft this)
    ([ReportStepEnumIcon (type this) (index this)]
     ++ v_if (prevStep this)
             (VBtn SLeft ShowPrevReport [VIcon "mdi-chevron-left"])
     ++ [VText (value this)]
     ++ v_if (nextStep this)
             (VBtn SRight ShowNextReport [VIcon "mdi-chevron-right"])).

(** *** Reading the rendered tree *)

Definition chip_children (n : vnode) : list vnode :=
  match n with
  | VChip _ _ _ _ _ cs => cs
  | _ => []
  end.

Definition on_click (n : vnode) : option handler :=
  match n with
  | VBtn _ h _ => Some h
  | _ => None
  end.

Global Instance handler_eq_dec : EqDecision handler.
Proof. solve_decision. Defined.

(** The click handlers of the buttons inside the chip, left to right. *)
Definition controls (n : vnode) : list handler :=
  omap on_click (chip_children n).

Definition control_rendered (h : handler) (n : vnode) : bool :=
  bool_decide (h ∈ controls n).

(** The style the chip is given: [(color, textColor)]. *)
Definition style (this : props) : string * string :=
  (color this, textColor this).

(** *** props: defaults *)

(** What the parent passes.  [id] and [value] are required; every other
    prop may be left out. *)
Record propsData : Type := PropsData {
  pd_id : jsval;
  pd_value : string;
  pd_marginLeft : option string;
  pd_type : option jsval;
  pd_index : option jsval;
  pd_bus : option jsval;
  pd_prevStep : option jsval;
  pd_nextStep : option jsval
}.

(** Vue takes the declared default when the parent passes nothing or
    passes [undefined]; [null] is kept. *)
Definition prop_default (passed : option jsval) (dflt : jsval) : jsval :=
  match passed with
  | None | Some VUndefined => dflt
  | Some v => v
  end.

(** The instance's props, with the defaults of the [props] declaration:
    the empty string for [marginLeft] and [null] for the rest. *)
Definition initProps (pd : propsData) : props :=
  Props (pd_id pd) (pd_value pd)
        (default EmptyString (pd_marginLeft pd))
        (prop_default (pd_type pd) VNull)
        (prop_default (pd_index pd) VNull)
        (prop_default (pd_bus pd) VNull)
        (prop_default (pd_prevStep pd) VNull)
        (prop_default (pd_nextStep pd) VNull).

End EditorBugStep.

(** ** Vocabulary of the specification, and the running example *)

Module StepBadge.
Import JS EditorBugStep.

(** The two navigation directions and what each one stands for in the
    component. *)
Inductive direction : Type :=
| Backward
| Forward.

Definition opposite (d : direction) : direction :=
  match d with
  | Backward => Forward
  | Forward => Backward
  end.

Definition neighbor (d : direction) (this : props) : jsval :=
  match d with
  | Backward => prevStep this
  | Forward => nextStep this
  end.

Definition action (d : direction) : handler :=
  match d with
  | Backward => ShowPrevReport
  | Forward => ShowNextReport
  end.

(** Invoking the navigation action of a direction. *)
Definition navigate (d : direction) (this : props) : M jsval :=
  methods (action d) this.

(** The literal each method passes to [$emit] as the event name. *)
Definition emitted_name (d : direction) : string :=
  match d with
  | Backward => "jpmToPrevReport"
  | Forward => "jpmToNextReport"
  end.

(** An optional prop is absent when it is [null] or [undefined], and a
    neighbor reference is present when it is an object. *)
Definition is_absent (v : jsval) : bool :=
  match v with
  | VUndefined | VNull => true
  | _ => false
  end.

Definition is_object (v : jsval) : bool :=
  match v with
  | VObj _ => true
  | _ => false
  end.

(** What a prop declared [{ type: Object, default: null }] holds when the
    parent respects the declaration. *)
Definition declared_Object (v : jsval) : bool :=
  is_absent v || is_object v.

(** A signaling channel is present in [w] when the prop refers to a Vue
    instance of the store. *)
Definition is_channel (w : world) (v : jsval) : bool :=
  match v with
  | VObj r =>
      match heap w !! r with
      | Some o => is_vue o
      | None => false
      end
  | _ => false
  end.

(** The four categories of the style table of the specification, with the
    pair [(background, text)] it gives for each, and its default pair. *)
Definition style_table : list (string * (string * string)) :=
  [ ("error", ("#f2dede", "#a94442"));
    ("fixit", ("#fcf8e3", "#8a6d3b"));
    ("macro", ("#d7dac2", "#4f5c6d"));
    ("note",  ("#d7d7d7", "#4f5c6d")) ].

Definition default_style : string * string := ("#bfdfe9", "#00546f").

Definition known_category (v : jsval) : Prop :=
  ∃ c, v = VStr c ∧ c ∈ style_table.*1.

(** The event the specification describes: a single name for both
    directions and a record [{ target, direction }] as payload. *)
Definition direction_tag (d : direction) : string :=
  match d with
  | Backward => "backward"
  | Forward => "forward"
  end.

Definition navigate_to_step
    (w : world) (e : event) (target : jsval) (d : direction) : Prop :=
  ev_name e = "navigate-to-step" ∧
  ∃ r o, ev_args e = [VObj r] ∧ heap w !! r = Some o ∧
         fields o !! "target" = Some target ∧
         fields o !! "direction" = Some (VStr (direction_tag d)).

(** Every operation of the component behind one interface, so that a
    statement can range over all of them. *)
Inductive operation : Type :=
| OpColor
| OpTextColor
| OpRender
| OpClick (h : handler).

Inductive output : Type :=
| OutStr (s : string)
| OutNode (n : vnode)
| OutVal (v : jsval).

Definition run (op : operation) (this : props) : M output :=
  match op with
  | OpColor => ret (OutStr (color this))
  | OpTextColor => ret (OutStr (textColor this))
  | OpRender => ret (OutNode (render this))
  | OpClick h => (v <~ methods h this ;; ret (OutVal v))%js
  end.

(** The end-to-end scenario: step "s1" of category error, no previous
    step, next step "s2", channel C. *)
Definition step_s2 : object :=
  Object false {[ "identifier" := VStr "s2" ]}.

Definition channel_C : object := Object true ∅.

Definition page : world :=
  World (<[1%positive := step_s2]> (<[2%positive := channel_C]> ∅)) [].

Definition badge_s1 : props :=
  Props (VStr "s1") "Null pointer dereference" EmptyString (VStr "error") (VNum 1)
        (VObj 2%positive) VNull (VObj 1%positive).

(** The same step in the middle of a trace: both neighbors are "s2". *)
Definition badge_mid : props :=
  Props (VStr "s1") "Null pointer dereference" EmptyString (VStr "error") (VNum 1)
        (VObj 2%positive) (VObj 1%positive) (VObj 1%positive).

(** The same step without a channel. *)
Definition badge_detached : props :=
  Props (VStr "s1") "Null pointer dereference" EmptyString (VStr "error") (VNum 1)
        VNull (VObj 1%positive) (VObj 1%positive).

(** A step whose category is not in the table. *)
Definition badge_garbage : props :=
  Props (VStr "s3") "Calling foo" EmptyString (VStr "unspecified-garbage") VNull
        VNull VNull VNull.


(** A click on a rendered button runs its handler to completion.  Vue calls
    the handler inside its own error handling, so an exception is reported
    and does not reach the next click; what stays is the world the handler
    left. *)
Definition click (this : props) (w : world) (h : handler) : world :=
  (methods h this w).1.

(** A series of clicks on the same instance, first to last. *)
Definition clicks (hs : list handler) (this : props) (w : world) : world :=
  foldl (click this) w hs.

(** The reverse of [action]. *)
Definition direction_of (h : handler) : direction :=
  match h with
  | ShowPrevReport => Backward
  | ShowNextReport => Forward
  end.

(** A CSS color in the notation [#rrggbb]. *)
Definition is_hex_digit (c : Ascii.ascii) : bool :=
  let n := Ascii.nat_of_ascii c in
  (Nat.leb 48 n && Nat.leb n 57) || (Nat.leb 97 n && Nat.leb n 102)
  || (Nat.leb 65 n && Nat.leb n 70).

Definition is_hex_color (s : string) : bool :=
  match s with
  | String c rest =>
      Ascii.eqb c (Ascii.ascii_of_nat 35) && Nat.eqb (String.length rest) 6
      && forallb is_hex_digit (String.list_ascii_of_string rest)
  | EmptyString => false
  end.

(** A parent that passes only the two required props. *)
Definition minimal (i : jsval) (msg : string) : propsData :=
  PropsData i msg None None None None None None.

(** ** The code on the running example *)

Example scenario_render :
  render badge_s1 =
  VChip "#f2dede" "#a94442" (VStr "s1") (VStr "error") EmptyString
    [ ReportStepEnumIcon (VStr "error") (VNum 1);
      VText "Null pointer dereference";
      VBtn SRight ShowNextReport [VIcon "mdi-chevron-right"] ].
Proof. reflexivity. Qed.

Example scenario_click_next :
  showNextReport badge_s1 page =
  (World (heap page) [Event 2%positive "jpmToNextReport" [VObj 1%positive]],
   inr VUndefined).
Proof. reflexivity. Qed.

Example scenario_click_prev :
  showPrevReport badge_s1 page = (page, inr VUndefined).
Proof. reflexivity. Qed.

Example style_null_category :
  style (Props (VNum 7) "msg" EmptyString VNull VNull VNull VNull VNull)
  = default_style.
Proof. reflexivity. Qed.

Example style_empty_category :
  style (Props (VNum 7) "msg" EmptyString (VStr EmptyString) VNull VNull VNull VNull)
  = default_style.
Proof. reflexivity. Qed.

Example style_case_sensitive :
  style (Props (VNum 7) "msg" EmptyString (VStr "Error") VNull VNull VNull VNull)
  = default_style.
Proof. reflexivity. Qed.

(** A [bus] that is an object without [$emit] (here the step "s2" itself)
    passes the guard and the call throws. *)
Example emit_on_plain_object :
  showNextReport
    (Props (VStr "s1") "msg" EmptyString VNull VNull
           (VObj 1%positive) VNull (VObj 1%positive)) page
  = (page, inl TypeError).
Proof. reflexivity. Qed.

(** ** Truthiness, [===] and the monad *)

Lemma strict_eq_VStr (v : jsval) (s : string) :
  strict_eq v (VStr s) = true ↔ v = VStr s.
Proof.
  destruct v as [| |b|n| |s'|r]; simpl; try (split; [discriminate|discriminate]).
  rewrite String.eqb_eq. split; [intros ->; reflexivity | congruence].
Qed.

Lemma strict_eq_VStr_false (v : jsval) (s : string) :
  v ≠ VStr s → strict_eq v (VStr s) = false.
Proof.
  intros Hne. destruct (strict_eq v (VStr s)) eqn:E; [|reflexivity].
  apply strict_eq_VStr in E. contradiction.
Qed.

Lemma truthy_js_and (a b : jsval) :
  truthy (js_and a b) = truthy a && truthy b.
Proof. unfold js_and. destruct (truthy a) eqn:E; simpl; auto. Qed.

Lemma is_absent_falsy (v : jsval) : is_absent v = true → truthy v = false.
Proof. destruct v; simpl; congruence. Qed.

Lemma is_object_truthy (v : jsval) : is_object v = true → truthy v = true.
Proof. destruct v; simpl; congruence. Qed.

Lemma is_channel_truthy (w : world) (v : jsval) :
  is_channel w v = true → truthy v = true.
Proof. destruct v; simpl; congruence. Qed.

Lemma published_app (w : world) (h : gmap loc object) (evs : list event) :
  published w (World h (emitted w ++ evs)) = evs.
Proof. unfold published. simpl. apply drop_app_length. Qed.

Lemma published_refl (w : world) : published w w = [].
Proof. unfold published. apply drop_all. Qed.

(** ** The methods *)

Lemma navigate_unfold (d : direction) (this : props) :
  navigate d this =
  if truthy (js_and (neighbor d this) (bus this))
  then (emit (bus this) (emitted_name d) [neighbor d this] ;;; ret VUndefined)%js
  else ret VUndefined.
Proof. destruct d; reflexivity. Qed.

(** A falsy neighbor or a falsy channel: the guard fails and the method
    returns without touching anything. *)
Lemma navigate_inert (d : direction) (this : props) (w : world) :
  truthy (neighbor d this) && truthy (bus this) = false →
  navigate d this w = (w, inr VUndefined).
Proof.
  intros Hg. rewrite navigate_unfold, truthy_js_and, Hg. reflexivity.
Qed.

Lemma emit_on_channel (v : jsval) (name : string) (args : list jsval) (w : world) :
  is_channel w v = true →
  ∃ r, v = VObj r ∧
       emit v name args w =
       (World (heap w) (emitted w ++ [Event r name args]), inr (VObj r)).
Proof.
  destruct v as [| |b|n| |s|r]; simpl; try discriminate.
  intros Hc. exists r. split; [reflexivity|].
  unfold emit. destruct (heap w !! r) as [o|]; [|discriminate].
  rewrite Hc. reflexivity.
Qed.

(** A truthy neighbor and a channel: one call of [$emit], with the
    method's own event name and the neighbor as the only argument. *)
Lemma navigate_emits (d : direction) (this : props) (w : world) :
  truthy (neighbor d this) = true →
  is_channel w (bus this) = true →
  ∃ r, bus this = VObj r ∧
       navigate d this w =
       (World (heap w)
              (emitted w ++ [Event r (emitted_name d) [neighbor d this]]),
        inr VUndefined).
Proof.
  intros Hn Hc.
  destruct (emit_on_channel _ (emitted_name d) [neighbor d this] _ Hc)
    as (r & Hr & He).
  exists r. split; [exact Hr|].
  rewrite navigate_unfold, truthy_js_and, Hn, (is_channel_truthy _ _ Hc).
  simpl. unfold bind. rewrite He. reflexivity.
Qed.

(** Whatever the receiver is, [$emit] leaves the store alone and appends
    at most one event, sent to that receiver. *)
Lemma emit_frame (v : jsval) (name : string) (args : list jsval) (w : world) :
  heap (emit v name args w).1 = heap w ∧
  ∃ evs, emitted (emit v name args w).1 = emitted w ++ evs ∧
         length evs ≤ 1 ∧
         Forall (λ e, VObj (ev_bus e) = v ∧ ev_name e = name ∧
                      ev_args e = args) evs.
Proof.
  assert (Hnil : heap w = heap w ∧
            ∃ evs, emitted w = emitted w ++ evs ∧ length evs ≤ 1 ∧
              Forall (λ e, VObj (ev_bus e) = v ∧ ev_name e = name ∧
                           ev_args e = args) evs).
  { split; [reflexivity|]. exists []. rewrite app_nil_r.
    repeat split; [simpl; lia | constructor]. }
  unfold emit, throw.
  destruct v as [| |b|n| |s|r]; simpl; try exact Hnil.
  destruct (heap w !! r) as [o|]; simpl; [|exact Hnil].
  destruct (is_vue o); simpl; [|exact Hnil].
  split; [reflexivity|]. exists [Event r name args].
  repeat split; [simpl; lia|]. repeat constructor.
Qed.

Lemma navigate_frame (d : direction) (this : props) (w : world) :
  heap (navigate d this w).1 = heap w ∧
  ∃ evs, emitted (navigate d this w).1 = emitted w ++ evs ∧
         length evs ≤ 1 ∧
         Forall (λ e, VObj (ev_bus e) = bus this ∧
                      ev_name e = emitted_name d ∧
                      ev_args e = [neighbor d this]) evs.
Proof.
  rewrite navigate_unfold.
  destruct (truthy (js_and (neighbor d this) (bus this))).
  - pose proof (emit_frame (bus this) (emitted_name d) [neighbor d this] w)
      as Hf.
    unfold bind.
    destruct (emit (bus this) (emitted_name d) [neighbor d this] w)
      as [w' [e|a]]; exact Hf.
  - split; [reflexivity|]. exists []. simpl. rewrite app_nil_r.
    repeat split; [lia | constructor].
Qed.

Lemma methods_navigate (h : handler) :
  ∃ d, action d = h.
Proof. destruct h; [exists Backward | exists Forward]; reflexivity. Qed.

(** ** The template *)

Lemma controls_render (this : props) :
  controls (render this) =
  (if truthy (prevStep this) then [ShowPrevReport] else [])
  ++ (if truthy (nextStep this) then [ShowNextReport] else []).
Proof.
  unfold controls, render, v_if. simpl.
  destruct (truthy (prevStep this)), (truthy (nextStep this)); reflexivity.
Qed.

Lemma control_rendered_truthy (d : direction) (this : props) :
  control_rendered (action d) (render this) = truthy (neighbor d this).
Proof.
  unfold control_rendered. rewrite controls_render.
  destruct d; simpl;
    destruct (truthy (prevStep this)), (truthy (nextStep this));
    reflexivity.
Qed.

(** ** Category to style *)

Lemma known_category_cases (v : jsval) :
  known_category v ↔
  v = VStr "error" ∨ v = VStr "fixit" ∨ v = VStr "macro" ∨ v = VStr "note".
Proof.
  unfold known_category, style_table. simpl. split.
  - intros (c & -> & Hin).
    repeat (apply elem_of_cons in Hin as [->|Hin]; [tauto|]).
    by apply elem_of_nil in Hin.
  - intros [->|[->|[->| ->]]]; eexists; (split; [reflexivity|]);
      repeat first [apply list_elem_of_here | apply list_elem_of_further].
Qed.

(** C2: for each of the categories error, fixit, macro and note, the pair
    (color, textColor) computed for a step of that category is the pair the
    style table lists for it. *)
Theorem style_of_known_category
    (this : props) (c : string) (pair : string * string) :
  (c, pair) ∈ style_table → type this = VStr c → style this = pair.
Proof.
  intros Hin Ht. unfold style, color, textColor. rewrite Ht.
  unfold style_table in Hin.
  repeat (apply elem_of_cons in Hin as [Hin|Hin];
          [injection Hin as -> ->; reflexivity|]).
  by apply elem_of_nil in Hin.
Qed.

Lemma style_of_known_category_witness :
  ("error", ("#f2dede", "#a94442")) ∈ style_table ∧
  type badge_s1 = VStr "error" ∧
  style badge_s1 = ("#f2dede", "#a94442").
Proof.
  split; [apply list_elem_of_here|]. split; [reflexivity|].
  apply (style_of_known_category badge_s1 "error");
    [apply list_elem_of_here | reflexivity].
Defined.

(** C3: for a [type] that is none of the four strings (null, undefined,
    the empty string, any other string, any other value) both computed
    properties fall to their default arm; they are total functions and
    have no failing case. *)
Theorem style_of_unknown_category (this : props) :
  ¬ known_category (type this) → style this = default_style.
Proof.
  rewrite known_category_cases. intros Hn.
  unfold style, color, textColor, default_style.
  rewrite !strict_eq_VStr_false by tauto. reflexivity.
Qed.

Lemma style_of_unknown_category_witness :
  ¬ known_category (type badge_garbage) ∧
  style badge_garbage = ("#bfdfe9", "#00546f").
Proof.
  assert (Hn : ¬ known_category (type badge_garbage)).
  { rewrite known_category_cases. simpl.
    intros [H|[H|[H|H]]]; discriminate H. }
  split; [exact Hn|].
  exact (style_of_unknown_category badge_garbage Hn).
Defined.

(** C7: the style is a function of the [type] prop alone: two instances
    with the same [type] get the same pair, whatever their other props
    are, and no state is read. *)
Theorem style_deterministic (this this' : props) :
  type this = type this' → style this = style this'.
Proof.
  intros Ht. unfold style, color, textColor. rewrite Ht. reflexivity.
Qed.

Lemma style_deterministic_witness :
  type badge_s1 = type badge_detached ∧ style badge_s1 = style badge_detached.
Proof.
  split; [reflexivity|].
  apply (style_deterministic badge_s1 badge_detached). reflexivity.
Defined.

(** ** Navigation *)

(** C1, as the specification words it, fails on the end-to-end scenario:
    the next step "s2" and the channel C are both present, yet the one
    event that clicking "next" publishes is not a [navigate-to-step]
    event. *)
Lemma navigate_to_step_not_published :
  is_object (neighbor Forward badge_s1) = true ∧
  is_channel page (bus badge_s1) = true ∧
  ¬ ∃ e, published page (navigate Forward badge_s1 page).1 = [e] ∧
         navigate_to_step (navigate Forward badge_s1 page).1 e
                          (neighbor Forward badge_s1) Forward.
Proof.
  split; [reflexivity|]. split; [reflexivity|].
  intros (e & Hp & Hname & _).
  vm_compute in Hp. injection Hp as <-.
  simpl in Hname. discriminate Hname.
Qed.

(** C1, amended: with the neighbor of a direction and the channel both
    present, the method of that direction returns normally and publishes
    exactly one event on the channel; its name is the one of that
    direction ("jpmToPrevReport" backward, "jpmToNextReport" forward), its
    only argument is the neighbor, and no event carries the name of the
    opposite direction. *)
Theorem navigate_publishes_one_event
    (d : direction) (this : props) (w : world) :
  is_object (neighbor d this) = true →
  is_channel w (bus this) = true →
  ∃ r, bus this = VObj r ∧
       (navigate d this w).2 = inr VUndefined ∧
       published w (navigate d this w).1 =
         [Event r (emitted_name d) [neighbor d this]] ∧
       ∀ e, e ∈ published w (navigate d this w).1 →
            ev_name e ≠ emitted_name (opposite d).
Proof.
  intros Hn Hc.
  destruct (navigate_emits d this w (is_object_truthy _ Hn) Hc)
    as (r & Hr & Hrun).
  exists r. rewrite Hrun. simpl. rewrite published_app.
  repeat split; [exact Hr|].
  intros e He. apply list_elem_of_singleton in He as ->.
  destruct d; simpl; discriminate.
Qed.

Lemma navigate_publishes_one_event_witness :
  is_object (neighbor Forward badge_s1) = true ∧
  is_channel page (bus badge_s1) = true ∧
  ∃ r, bus badge_s1 = VObj r ∧
       (navigate Forward badge_s1 page).2 = inr VUndefined ∧
       published page (navigate Forward badge_s1 page).1 =
         [Event r "jpmToNextReport" [VObj 1%positive]] ∧
       ∀ e, e ∈ published page (navigate Forward badge_s1 page).1 →
            ev_name e ≠ "jpmToPrevReport".
Proof.
  split; [reflexivity|]. split; [reflexivity|].
  apply (navigate_publishes_one_event Forward badge_s1 page); reflexivity.
Defined.

(** C4: without a channel ([bus] null or undefined) either method returns
    normally and leaves the world as it found it, so nothing is published,
    whatever the neighbors are. *)
Theorem navigate_without_channel
    (d : direction) (this : props) (w : world) :
  is_absent (bus this) = true →
  navigate d this w = (w, inr VUndefined) ∧
  published w (navigate d this w).1 = [].
Proof.
  intros Hb.
  assert (Hrun : navigate d this w = (w, inr VUndefined)).
  { apply navigate_inert. rewrite (is_absent_falsy _ Hb).
    apply andb_false_r. }
  rewrite Hrun. split; [reflexivity | apply published_refl].
Qed.

Lemma navigate_without_channel_witness :
  is_absent (bus badge_detached) = true ∧
  navigate Backward badge_detached page = (page, inr VUndefined) ∧
  published page (navigate Backward badge_detached page).1 = [].
Proof.
  split; [reflexivity|].
  apply (navigate_without_channel Backward badge_detached page).
  reflexivity.
Defined.

(** C5: without the neighbor of a direction (null or undefined) the method
    of that direction returns normally and publishes nothing, with or
    without a channel. *)
Theorem navigate_without_neighbor
    (d : direction) (this : props) (w : world) :
  is_absent (neighbor d this) = true →
  navigate d this w = (w, inr VUndefined) ∧
  published w (navigate d this w).1 = [].
Proof.
  intros Hn.
  assert (Hrun : navigate d this w = (w, inr VUndefined)).
  { apply navigate_inert. rewrite (is_absent_falsy _ Hn). reflexivity. }
  rewrite Hrun. split; [reflexivity | apply published_refl].
Qed.

Lemma navigate_without_neighbor_witness :
  is_absent (neighbor Backward badge_s1) = true ∧
  navigate Backward badge_s1 page = (page, inr VUndefined) ∧
  published page (navigate Backward badge_s1 page).1 = [].
Proof.
  split; [reflexivity|].
  apply (navigate_without_neighbor Backward badge_s1 page).
  reflexivity.
Defined.

(** C10: the two methods emit under two different fixed names,
    "jpmToPrevReport" and "jpmToNextReport"; the event has exactly one
    argument, which is the neighbor reference as it was passed in: no
    object is created to wrap it and nothing tells the direction but the
    name. *)
Theorem navigate_event_name_and_payload
    (d : direction) (this : props) (w : world) (n : loc) :
  neighbor d this = VObj n →
  is_channel w (bus this) = true →
  ∃ e, published w (navigate d this w).1 = [e] ∧
       VObj (ev_bus e) = bus this ∧
       ev_name e = match d with
                   | Backward => "jpmToPrevReport"
                   | Forward => "jpmToNextReport"
                   end ∧
       ev_name e ≠ match d with
                   | Backward => "jpmToNextReport"
                   | Forward => "jpmToPrevReport"
                   end ∧
       ev_args e = [VObj n] ∧
       heap (navigate d this w).1 = heap w.
Proof.
  intros Hn Hc.
  assert (Ht : truthy (neighbor d this) = true) by (rewrite Hn; reflexivity).
  destruct (navigate_emits d this w Ht Hc) as (r & Hr & Hrun).
  exists (Event r (emitted_name d) [neighbor d this]).
  rewrite Hrun. simpl. rewrite published_app, Hr, Hn.
  destruct d; simpl; repeat split; discriminate.
Qed.

Lemma navigate_event_name_and_payload_witness :
  neighbor Backward badge_mid = VObj 1%positive ∧
  is_channel page (bus badge_mid) = true ∧
  ∃ e, published page (navigate Backward badge_mid page).1 = [e] ∧
       VObj (ev_bus e) = bus badge_mid ∧
       ev_name e = "jpmToPrevReport" ∧
       ev_name e ≠ "jpmToNextReport" ∧
       ev_args e = [VObj 1%positive] ∧
       heap (navigate Backward badge_mid page).1 = heap page.
Proof.
  split; [reflexivity|]. split; [reflexivity|].
  apply (navigate_event_name_and_payload Backward badge_mid page 1%positive);
    reflexivity.
Defined.

(** C6: for a neighbor prop that holds what its declaration allows (null,
    undefined or an object), the button of that direction is in the
    rendered chip exactly when the neighbor is present. *)
Theorem control_rendered_iff_neighbor_present
    (d : direction) (this : props) :
  declared_Object (neighbor d this) = true →
  control_rendered (action d) (render this) =
  negb (is_absent (neighbor d this)).
Proof.
  intros Hd. rewrite control_rendered_truthy.
  unfold declared_Object in Hd.
  destruct (neighbor d this); simpl in *; congruence.
Qed.

Lemma control_rendered_iff_neighbor_present_witness :
  (declared_Object (neighbor Backward badge_s1) = true ∧
   control_rendered (action Backward) (render badge_s1) = false) ∧
  (declared_Object (neighbor Forward badge_s1) = true ∧
   control_rendered (action Forward) (render badge_s1) = true).
Proof.
  split; (split; [reflexivity|]).
  - apply (control_rendered_iff_neighbor_present Backward badge_s1).
    reflexivity.
  - apply (control_rendered_iff_neighbor_present Forward badge_s1).
    reflexivity.
Defined.

(** C9: whether the button of a direction is rendered is decided by the
    neighbor alone, for every instance: it is rendered exactly when the
    neighbor is truthy, so two instances with the same neighbor agree on it
    whatever their channels are.  In particular, with the neighbor present
    and the channel absent the button is rendered, and its click handler
    returns normally without publishing anything. *)
Theorem control_visible_but_inert_without_channel
    (d : direction) (this : props) (w : world) :
  control_rendered (action d) (render this) = truthy (neighbor d this) ∧
  (∀ this', neighbor d this' = neighbor d this →
            control_rendered (action d) (render this') =
            control_rendered (action d) (render this)) ∧
  (is_object (neighbor d this) = true →
   is_absent (bus this) = true →
   control_rendered (action d) (render this) = true ∧
   action d ∈ controls (render this) ∧
   methods (action d) this w = (w, inr VUndefined) ∧
   published w (methods (action d) this w).1 = []).
Proof.
  split; [apply control_rendered_truthy|]. split.
  { intros this' Heq. rewrite !control_rendered_truthy, Heq. reflexivity. }
  intros Hn Hb.
  assert (Hr : control_rendered (action d) (render this) = true).
  { rewrite control_rendered_truthy. by apply is_object_truthy. }
  assert (Hrun : methods (action d) this w = (w, inr VUndefined)).
  { apply (navigate_inert d). rewrite (is_absent_falsy _ Hb).
    apply andb_false_r. }
  split; [exact Hr|]. split.
  { unfold control_rendered in Hr. by apply bool_decide_eq_true in Hr. }
  rewrite Hrun. split; [reflexivity | apply published_refl].
Qed.

Lemma control_visible_but_inert_without_channel_witness :
  is_object (neighbor Forward badge_detached) = true ∧
  is_absent (bus badge_detached) = true ∧
  control_rendered ShowNextReport (render badge_detached) = true ∧
  ShowNextReport ∈ controls (render badge_detached) ∧
  showNextReport badge_detached page = (page, inr VUndefined) ∧
  published page (showNextReport badge_detached page).1 = [].
Proof.
  split; [reflexivity|]. split; [reflexivity|].
  apply (proj2 (proj2 (control_visible_but_inert_without_channel
                         Forward badge_detached page)));
    reflexivity.
Defined.

(** ** Frame *)

Lemma bind_ret_world {A B : Type} (m : M A) (f : A → B) (w : world) :
  (bind m (λ a, ret (f a)) w).1 = (m w).1.
Proof. unfold bind, ret. destruct (m w) as [w' [e|a]]; reflexivity. Qed.

(** C8: no operation of the component (computing either color, rendering,
    running either click handler) changes the object store, so the step
    objects and the neighbors are as they were; the only change to the
    shared state is that at most one event, sent to the [bus] prop, is
    appended to the log of emitted events. *)
Theorem component_frame (op : operation) (this : props) (w : world) :
  heap (run op this w).1 = heap w ∧
  ∃ evs, emitted (run op this w).1 = emitted w ++ evs ∧
         length evs ≤ 1 ∧
         Forall (λ e, VObj (ev_bus e) = bus this) evs.
Proof.
  assert (Hpure : heap w = heap w ∧
            ∃ evs, emitted w = emitted w ++ evs ∧ length evs ≤ 1 ∧
                   Forall (λ e, VObj (ev_bus e) = bus this) evs).
  { split; [reflexivity|]. exists []. rewrite app_nil_r.
    repeat split; [simpl; lia | constructor]. }
  destruct op as [| | |h]; simpl; try exact Hpure.
  rewrite bind_ret_world.
  destruct (methods_navigate h) as [d <-].
  destruct (navigate_frame d this w) as (Hh & evs & He & Hl & Hall).
  split; [exact Hh|]. exists evs. repeat split; [exact He | exact Hl |].
  eapply Forall_impl; [exact Hall|]. simpl. intros e (Hb & _). exact Hb.
Qed.

(** ** More on the methods: the guard, the throwing case, what is published *)

Lemma is_channel_false_emit
    (v : jsval) (name : string) (args : list jsval) (w : world) :
  is_channel w v = false → emit v name args w = (w, inl TypeError).
Proof.
  unfold is_channel, emit, throw.
  destruct v as [| |b|n| |s|r]; try reflexivity.
  destruct (heap w !! r) as [o|]; [|reflexivity].
  intros ->. reflexivity.
Qed.

Lemma navigate_throws (d : direction) (this : props) (w : world) :
  truthy (neighbor d this) = true →
  truthy (bus this) = true →
  is_channel w (bus this) = false →
  navigate d this w = (w, inl TypeError).
Proof.
  intros Hn Hb Hc.
  rewrite navigate_unfold, truthy_js_and, Hn, Hb. simpl.
  unfold bind. rewrite (is_channel_false_emit _ _ _ _ Hc). reflexivity.
Qed.

Lemma published_of_app (w w' : world) (evs : list event) :
  emitted w' = emitted w ++ evs → published w w' = evs.
Proof. unfold published. intros ->. apply drop_app_length. Qed.

Lemma rendered_control_truthy (h : handler) (this : props) :
  h ∈ controls (render this) →
  truthy (neighbor (direction_of h) this) = true.
Proof.
  rewrite controls_render.
  destruct (truthy (prevStep this)) eqn:Ep, (truthy (nextStep this)) eqn:En;
    simpl; intros Hin;
    repeat (apply elem_of_cons in Hin as [->|Hin]; [simpl; assumption|]);
    by apply elem_of_nil in Hin.
Qed.

Lemma action_direction_of (h : handler) : action (direction_of h) = h.
Proof. destruct h; reflexivity. Qed.

(** X1: a method throws exactly when its guard passes on a [bus] that has
    no [$emit]: both the neighbor and [bus] are truthy and [bus] is not a
    Vue instance.  The exception is a TypeError, and when a method throws
    it has published nothing and changed nothing. *)
Theorem navigate_throws_iff (d : direction) (this : props) (w : world) :
  ((navigate d this w).2 = inl TypeError ↔
   truthy (neighbor d this) = true ∧ truthy (bus this) = true ∧
   is_channel w (bus this) = false) ∧
  ((navigate d this w).2 ≠ inr VUndefined → navigate d this w = (w, inl TypeError)).
Proof.
  destruct (truthy (neighbor d this)) eqn:Hn.
  - destruct (is_channel w (bus this)) eqn:Hc.
    + destruct (navigate_emits d this w Hn Hc) as (r & _ & ->). simpl.
      split; [|congruence]. split; [discriminate|].
      intros (_ & _ & H). discriminate H.
    + destruct (truthy (bus this)) eqn:Hb.
      * rewrite (navigate_throws d this w Hn Hb Hc). simpl.
        split; [|reflexivity]. split; [auto|reflexivity].
      * rewrite (navigate_inert d this w) by (rewrite Hn, Hb; reflexivity).
        simpl. split; [|congruence]. split; [discriminate|].
        intros (_ & H & _). discriminate H.
  - rewrite (navigate_inert d this w) by (rewrite Hn; reflexivity).
    simpl. split; [|congruence]. split; [discriminate|].
    intros (H & _). discriminate H.
Qed.

(** X2: what a method publishes, for every input: the one event named after
    the method, sent to [bus] with the neighbor as its argument, when the
    neighbor is truthy and [bus] is a Vue instance, and nothing otherwise.
    The test on the neighbor is truthiness, so an empty string, 0, NaN or
    false in its place publish nothing either. *)
Theorem navigate_published (d : direction) (this : props) (w : world) :
  published w (navigate d this w).1 =
  if truthy (neighbor d this) && is_channel w (bus this)
  then match bus this with
       | VObj r => [Event r (emitted_name d) [neighbor d this]]
       | _ => []
       end
  else [].
Proof.
  destruct (truthy (neighbor d this)) eqn:Hn; simpl.
  - destruct (is_channel w (bus this)) eqn:Hc.
    + destruct (navigate_emits d this w Hn Hc) as (r & Hr & ->).
      rewrite Hr. simpl. apply published_app.
    + destruct (truthy (bus this)) eqn:Hb.
      * rewrite (navigate_throws d this w Hn Hb Hc). apply published_refl.
      * rewrite (navigate_inert d this w) by (rewrite Hn, Hb; reflexivity).
        apply published_refl.
  - rewrite (navigate_inert d this w) by (rewrite Hn; reflexivity).
    apply published_refl.
Qed.

(** X3: the condition of a button's [v-if] is the neighbor half of its
    handler's guard.  So with a channel present, the handler of any button
    that was rendered returns normally and publishes exactly one event,
    whose one argument is truthy. *)
Theorem rendered_control_publishes
    (h : handler) (this : props) (w : world) :
  h ∈ controls (render this) →
  is_channel w (bus this) = true →
  (methods h this w).2 = inr VUndefined ∧
  ∃ e v, published w (methods h this w).1 = [e] ∧
         VObj (ev_bus e) = bus this ∧
         ev_args e = [v] ∧ truthy v = true.
Proof.
  intros Hin Hc.
  pose proof (rendered_control_truthy h this Hin) as Hn.
  destruct (navigate_emits (direction_of h) this w Hn Hc) as (r & Hr & Hrun).
  unfold navigate in Hrun. rewrite action_direction_of in Hrun.
  rewrite Hrun. simpl. split; [reflexivity|].
  eexists _, _. rewrite published_app.
  split; [reflexivity|]. simpl. rewrite Hr. auto.
Qed.

Lemma rendered_control_publishes_witness :
  ShowNextReport ∈ controls (render badge_s1) ∧
  is_channel page (bus badge_s1) = true ∧
  (showNextReport badge_s1 page).2 = inr VUndefined ∧
  ∃ e v, published page (showNextReport badge_s1 page).1 = [e] ∧
         VObj (ev_bus e) = bus badge_s1 ∧
         ev_args e = [v] ∧ truthy v = true.
Proof.
  assert (Hin : ShowNextReport ∈ controls (render badge_s1))
    by apply list_elem_of_here.
  split; [exact Hin|]. split; [reflexivity|].
  exact (rendered_control_publishes ShowNextReport badge_s1 page Hin eq_refl).
Defined.

Lemma navigate_throws_iff_witness :
  let this := Props (VStr "s1") "msg" EmptyString VNull VNull
                    (VObj 1%positive) VNull (VObj 1%positive) in
  truthy (neighbor Forward this) = true ∧ truthy (bus this) = true ∧
  is_channel page (bus this) = false ∧
  (navigate Forward this page).2 = inl TypeError.
Proof.
  intros this. split; [reflexivity|]. split; [reflexivity|].
  split; [reflexivity|].
  apply (proj1 (navigate_throws_iff Forward this page)).
  repeat split.
Defined.

(** ** Series of clicks *)

Lemma click_frame (this : props) (w : world) (h : handler) :
  heap (click this w h) = heap w ∧
  ∃ evs, emitted (click this w h) = emitted w ++ evs ∧
         length evs ≤ 1 ∧
         Forall (λ e, VObj (ev_bus e) = bus this) evs.
Proof.
  unfold click. rewrite <- (action_direction_of h).
  destruct (navigate_frame (direction_of h) this w)
    as (Hh & evs & He & Hl & Hall).
  split; [exact Hh|]. exists evs. repeat split; [exact He | exact Hl |].
  eapply Forall_impl; [exact Hall|]. simpl. intros e (Hb & _). exact Hb.
Qed.

Lemma is_channel_heap (w w' : world) (v : jsval) :
  heap w' = heap w → is_channel w' v = is_channel w v.
Proof. unfold is_channel. intros ->. reflexivity. Qed.

(** The event a click on [h] adds to the log of the channel [r], if any. *)
Lemma click_emitted (this : props) (w : world) (h : handler) (r : loc) :
  bus this = VObj r →
  is_channel w (bus this) = true →
  heap (click this w h) = heap w ∧
  emitted (click this w h) =
  emitted w ++
  (if truthy (neighbor (direction_of h) this)
   then [Event r (emitted_name (direction_of h))
               [neighbor (direction_of h) this]]
   else []).
Proof.
  intros Hr Hc. unfold click. rewrite <- (action_direction_of h) at 1 2.
  fold (navigate (direction_of h) this).
  destruct (truthy (neighbor (direction_of h) this)) eqn:Hn.
  - destruct (navigate_emits (direction_of h) this w Hn Hc) as (r' & Hr' & ->).
    simpl. split; [reflexivity|]. congruence.
  - rewrite (navigate_inert (direction_of h) this w)
      by (rewrite Hn; reflexivity).
    simpl. rewrite app_nil_r. auto.
Qed.

Lemma clicks_emitted (hs : list handler) (this : props) (w : world) (r : loc) :
  bus this = VObj r →
  is_channel w (bus this) = true →
  heap (clicks hs this w) = heap w ∧
  emitted (clicks hs this w) =
  emitted w ++
  omap (λ h, if truthy (neighbor (direction_of h) this)
             then Some (Event r (emitted_name (direction_of h))
                              [neighbor (direction_of h) this])
             else None) hs.
Proof.
  intros Hr. revert w.
  induction hs as [|h hs IH]; intros w Hc.
  - simpl. rewrite app_nil_r. auto.
  - destruct (click_emitted this w h r Hr Hc) as (Hh & He).
    assert (Hc' : is_channel (click this w h) (bus this) = true)
      by (rewrite (is_channel_heap _ _ _ Hh); exact Hc).
    destruct (IH (click this w h) Hc') as (Hh' & He').
    change (clicks (h :: hs) this w) with (clicks hs this (click this w h)).
    split; [congruence|].
    rewrite He', He. simpl.
    destruct (truthy (neighbor (direction_of h) this));
      simpl; rewrite <- app_assoc; reflexivity.
Qed.

(** X4: whatever buttons are clicked and in whatever order, the object
    store stays as it was and the log of emitted events only grows at its
    end: what was emitted before is still there, in the same order, and at
    most one event per click, all of them sent to [bus], has been added. *)
Theorem clicks_frame (hs : list handler) (this : props) (w : world) :
  heap (clicks hs this w) = heap w ∧
  ∃ evs, emitted (clicks hs this w) = emitted w ++ evs ∧
         length evs ≤ length hs ∧
         Forall (λ e, VObj (ev_bus e) = bus this) evs.
Proof.
  revert w. induction hs as [|h hs IH]; intros w.
  - split; [reflexivity|]. exists []. simpl. rewrite app_nil_r.
    repeat split; [lia | constructor].
  - change (clicks (h :: hs) this w) with (clicks hs this (click this w h)).
    destruct (click_frame this w h) as (Hh & evs & He & Hl & Hall).
    destruct (IH (click this w h)) as (Hh' & evs' & He' & Hl' & Hall').
    split; [congruence|]. exists (evs ++ evs').
    rewrite He', He, app_assoc, length_app. simpl.
    repeat split; [lia | by apply Forall_app].
Qed.

(** X5: with a channel present, a series of clicks on buttons that are
    rendered publishes one event per click, in the order of the clicks:
    the event named after the clicked button's method, carrying that
    button's neighbor. *)
Theorem clicks_on_rendered_controls
    (hs : list handler) (this : props) (w : world) (r : loc) :
  bus this = VObj r →
  is_channel w (bus this) = true →
  Forall (λ h, h ∈ controls (render this)) hs →
  published w (clicks hs this w) =
  map (λ h, Event r (emitted_name (direction_of h))
                  [neighbor (direction_of h) this]) hs.
Proof.
  intros Hr Hc Hall.
  destruct (clicks_emitted hs this w r Hr Hc) as (_ & He).
  apply published_of_app. rewrite He. f_equal.
  clear He. induction Hall as [|h hs Hin _ IH]; [reflexivity|].
  csimpl. rewrite (rendered_control_truthy h this Hin). csimpl.
  by rewrite IH.
Qed.

Lemma clicks_on_rendered_controls_witness :
  bus badge_mid = VObj 2%positive ∧
  is_channel page (bus badge_mid) = true ∧
  Forall (λ h, h ∈ controls (render badge_mid))
         [ShowNextReport; ShowPrevReport; ShowNextReport] ∧
  published page
    (clicks [ShowNextReport; ShowPrevReport; ShowNextReport] badge_mid page) =
  [ Event 2%positive "jpmToNextReport" [VObj 1%positive];
    Event 2%positive "jpmToPrevReport" [VObj 1%positive];
    Event 2%positive "jpmToNextReport" [VObj 1%positive] ].
Proof.
  assert (Hp : ShowPrevReport ∈ controls (render badge_mid))
    by apply list_elem_of_here.
  assert (Hn : ShowNextReport ∈ controls (render badge_mid))
    by apply list_elem_of_further, list_elem_of_here.
  assert (Hall : Forall (λ h, h ∈ controls (render badge_mid))
                        [ShowNextReport; ShowPrevReport; ShowNextReport])
    by (repeat constructor; assumption).
  split; [reflexivity|]. split; [reflexivity|]. split; [exact Hall|].
  exact (clicks_on_rendered_controls
           [ShowNextReport; ShowPrevReport; ShowNextReport]
           badge_mid page 2%positive eq_refl eq_refl Hall).
Defined.

(** ** More on the colors *)

(** The five arms of the two switches, side by side. *)
Lemma style_cases (this : props) :
  (type this = VStr "error" ∧ style this = ("#f2dede", "#a94442")) ∨
  (type this = VStr "fixit" ∧ style this = ("#fcf8e3", "#8a6d3b")) ∨
  (type this = VStr "macro" ∧ style this = ("#d7dac2", "#4f5c6d")) ∨
  (type this = VStr "note" ∧ style this = ("#d7d7d7", "#4f5c6d")) ∨
  (¬ known_category (type this) ∧ style this = ("#bfdfe9", "#00546f")).
Proof.
  unfold style, color, textColor.
  destruct (strict_eq (type this) (VStr "error")) eqn:E1;
    [apply strict_eq_VStr in E1; tauto|].
  destruct (strict_eq (type this) (VStr "fixit")) eqn:E2;
    [apply strict_eq_VStr in E2; tauto|].
  destruct (strict_eq (type this) (VStr "macro")) eqn:E3;
    [apply strict_eq_VStr in E3; tauto|].
  destruct (strict_eq (type this) (VStr "note")) eqn:E4;
    [apply strict_eq_VStr in E4; tauto|].
  do 4 right. split; [|reflexivity].
  rewrite known_category_cases.
  intros [H|[H|[H|H]]]; apply strict_eq_VStr in H; congruence.
Qed.

Ltac style_case this H :=
  let Ht := fresh "Ht" in
  destruct (style_cases this) as [[Ht H]|[[Ht H]|[[Ht H]|[[Ht H]|[Ht H]]]]];
  unfold style in H; injection H as H ?.

(** X6: the text of a chip never has the color of its background, whatever
    the props are. *)
Theorem text_never_background_color (this : props) :
  color this ≠ textColor this.
Proof.
  style_case this H; congruence.
Qed.

(** X7: both computed properties always return a CSS color of the form
    [#rrggbb]: a hash sign followed by exactly six hexadecimal digits. *)
Theorem colors_are_hex (this : props) :
  is_hex_color (color this) = true ∧ is_hex_color (textColor this) = true.
Proof.
  style_case this H; rewrite H; match goal with E : textColor _ = _ |- _ =>
    rewrite E end; split; reflexivity.
Qed.

(** X8: the two switches branch alike, so the background color alone tells
    the text color: two instances with the same [color] have the same
    [textColor]. *)
Theorem background_determines_text (this this' : props) :
  color this = color this' → textColor this = textColor this'.
Proof.
  style_case this H; style_case this' H'; congruence.
Qed.

Lemma background_determines_text_witness :
  color badge_s1 = color badge_mid ∧ textColor badge_s1 = textColor badge_mid.
Proof.
  split; [reflexivity|].
  apply (background_determines_text badge_s1 badge_mid). reflexivity.
Defined.

(** X9: the converse fails in one place only.  Two instances with the same
    text color have the same background unless one is a macro step and the
    other a note step, the two categories that share the text color
    [#4f5c6d]. *)
Theorem text_color_collision (this this' : props) :
  textColor this = textColor this' →
  color this = color this' ∨
  (type this = VStr "macro" ∧ type this' = VStr "note") ∨
  (type this = VStr "note" ∧ type this' = VStr "macro").
Proof.
  style_case this H; style_case this' H'; intros Heq;
    first [ left; congruence | right; tauto | congruence ].
Qed.

Lemma text_color_collision_witness :
  let m := Props (VNum 1) "expanded from macro" EmptyString (VStr "macro")
                 VNull VNull VNull VNull in
  let n := Props (VNum 2) "declared here" EmptyString (VStr "note")
                 VNull VNull VNull VNull in
  textColor m = textColor n ∧ color m ≠ color n ∧
  (color m = color n ∨
   (type m = VStr "macro" ∧ type n = VStr "note") ∨
   (type m = VStr "note" ∧ type n = VStr "macro")).
Proof.
  intros m n. split; [reflexivity|]. split; [discriminate|].
  apply (text_color_collision m n). reflexivity.
Defined.

(** ** More on the template *)

(** X10: every button of the chip is one of the two of the template, and
    only for a truthy neighbor: a button on the left has the left chevron
    and calls [showPrevReport], a button on the right has the right chevron
    and calls [showNextReport]. *)
Theorem button_side_and_handler
    (this : props) (s : side) (h : handler) (cs : list vnode) :
  VBtn s h cs ∈ chip_children (render this) →
  (s = SLeft ∧ h = ShowPrevReport ∧ cs = [VIcon "mdi-chevron-left"] ∧
   truthy (prevStep this) = true) ∨
  (s = SRight ∧ h = ShowNextReport ∧ cs = [VIcon "mdi-chevron-right"] ∧
   truthy (nextStep this) = true).
Proof.
  unfold render, v_if. simpl.
  destruct (truthy (prevStep this)), (truthy (nextStep this)); simpl;
    intros Hin;
    repeat (apply elem_of_cons in Hin as [Hin|Hin];
            [first [discriminate Hin | injection Hin as -> -> ->; tauto]|]);
    by apply elem_of_nil in Hin.
Qed.

Lemma button_side_and_handler_witness :
  VBtn SRight ShowNextReport [VIcon "mdi-chevron-right"]
    ∈ chip_children (render badge_s1) ∧
  ((SRight = SLeft ∧ ShowNextReport = ShowPrevReport ∧
    [VIcon "mdi-chevron-right"] = [VIcon "mdi-chevron-left"] ∧
    truthy (prevStep badge_s1) = true) ∨
   (SRight = SRight ∧ ShowNextReport = ShowNextReport ∧
    [VIcon "mdi-chevron-right"] = [VIcon "mdi-chevron-right"] ∧
    truthy (nextStep badge_s1) = true)).
Proof.
  assert (Hin : VBtn SRight ShowNextReport [VIcon "mdi-chevron-right"]
                  ∈ chip_children (render badge_s1))
    by (do 2 apply list_elem_of_further; apply list_elem_of_here).
  split; [exact Hin|].
  exact (button_side_and_handler badge_s1 SRight ShowNextReport _ Hin).
Defined.

(** X11: the chip has at most two buttons, at most one per method and in
    the order of the template, the one for [showPrevReport] before the one
    for [showNextReport]; a method has a button exactly when its neighbor is
    truthy. *)
Theorem controls_in_template_order (this : props) :
  controls (render this) `sublist_of` [ShowPrevReport; ShowNextReport] ∧
  NoDup (controls (render this)) ∧
  ∀ h, h ∈ controls (render this) ↔
       truthy (neighbor (direction_of h) this) = true.
Proof.
  rewrite controls_render.
  destruct (truthy (prevStep this)) eqn:Ep, (truthy (nextStep this)) eqn:En;
    simpl; (split; [|split]);
    try (repeat first [ apply sublist_nil | apply sublist_skip
                      | apply sublist_cons ]; fail);
    try (repeat (apply NoDup_cons; split;
                 [rewrite ?elem_of_cons, ?elem_of_nil; intuition discriminate|]);
         apply NoDup_nil_2);
    intros [|]; simpl; rewrite ?elem_of_cons, ?elem_of_nil, ?Ep, ?En;
    intuition discriminate.
Qed.

(** X12: what the rendered chip shows of the props, and no more: two
    instances render to the same tree exactly when they agree on [id],
    [value], [marginLeft], [type] and [index] and on the truthiness of each
    neighbor.  The channel and the identity of the neighbors have no part
    in it. *)
Theorem render_eq_iff (this this' : props) :
  render this = render this' ↔
  id this = id this' ∧ value this = value this' ∧
  marginLeft this = marginLeft this' ∧ type this = type this' ∧
  index this = index this' ∧
  truthy (prevStep this) = truthy (prevStep this') ∧
  truthy (nextStep this) = truthy (nextStep this').
Proof.
  unfold render, v_if, color, textColor. split.
  - intros H. injection H as _ _ Hi Ht Hm Hc.
    destruct (truthy (prevStep this)), (truthy (prevStep this')),
             (truthy (nextStep this)), (truthy (nextStep this'));
      simpl in Hc; simplify_eq; repeat split; assumption.
  - intros (-> & -> & -> & -> & -> & -> & ->). reflexivity.
Qed.

(** ** Props and their defaults *)

Lemma prop_default_null (passed : option jsval) :
  prop_default passed VNull ≠ VUndefined ∧
  truthy (prop_default passed VNull) = from_option truthy false passed.
Proof.
  destruct passed as [[| |b|n| |s|r]|]; simpl; split;
    first [discriminate | reflexivity].
Qed.

(** X13: inside the component an optional prop is never [undefined]: what
    the parent left out or passed as [undefined] has become [null].  The
    button of a direction is rendered exactly when the parent passed a
    truthy neighbor for it. *)
Theorem initProps_no_undefined (pd : propsData) :
  Forall (λ v, v ≠ VUndefined)
         [ type (initProps pd); index (initProps pd); bus (initProps pd);
           prevStep (initProps pd); nextStep (initProps pd) ] ∧
  control_rendered ShowPrevReport (render (initProps pd))
    = from_option truthy false (pd_prevStep pd) ∧
  control_rendered ShowNextReport (render (initProps pd))
    = from_option truthy false (pd_nextStep pd).
Proof.
  split.
  - repeat constructor; simpl; apply prop_default_null.
  - rewrite (control_rendered_truthy Backward),
            (control_rendered_truthy Forward).
    simpl. split; apply prop_default_null.
Qed.

(** X14: an instance that was given only the two required props has the
    default colors, an empty margin and no button, and both of its methods
    return without publishing, in any world. *)
Theorem minimal_instance (i : jsval) (msg : string) :
  style (initProps (minimal i msg)) = ("#bfdfe9", "#00546f") ∧
  marginLeft (initProps (minimal i msg)) = EmptyString ∧
  controls (render (initProps (minimal i msg))) = [] ∧
  ∀ h w, methods h (initProps (minimal i msg)) w = (w, inr VUndefined).
Proof.
  repeat split. intros h w.
  rewrite <- (action_direction_of h).
  apply (navigate_inert (direction_of h)). destruct h; reflexivity.
Qed.
End StepBadge.
